(** * Resource Library (src/App.js): a shallow embedding and its properties

    The component [App] keeps seven pieces of React state, loads a JSON
    collection once, filters it by a search term and three attribute
    selections, and shows one selected resource in a dialog.  The state is
    modelled as a record, the handlers as functions on it, the filtering
    effect as a function into an error monad (property access on a missing
    title raises [TypeError]) and the asynchronous loader as a program in a
    state-and-exception monad over the component state and the outside
    world (the calls to [fetch], the console). *)

From stdpp Require Import gmap strings list fin_maps pretty.
From Stdlib Require Import ZArith Ascii String.

Local Open Scope string_scope.
Local Open Scope Z_scope.

(** ** JavaScript values

    The values that a JSON attribute of a resource, a filter selection or a
    piece of state can hold.  A string is its sequence of code units, here
    the characters of [string]; numbers are the integer-valued ones; nested
    arrays and objects as attribute values are outside the model. *)

Inductive jsval : Type :=
  | JUndefined
  | JNull
  | JBool (b : bool)
  | JNum (n : Z)
  | JStr (s : string).

#[global] Instance jsval_eq_dec : EqDecision jsval.
Proof. solve_decision. Defined.

(** A JavaScript object with string keys: a resource record as parsed from
    JSON, or the [filters] state. *)
Abbreviation jsobj := (gmap string jsval).
Abbreviation Resource := (gmap string jsval).

(** [o[k]] and [o.k]: a missing property reads as [undefined].  The keys
    the component reads (id, title, topic, type, conference, url) are not
    defined by [Object.prototype], so the own properties decide. *)
Definition get (o : jsobj) (k : string) : jsval :=
  default JUndefined (o !! k).

(** ToBoolean. *)
Definition truthy (v : jsval) : bool :=
  match v with
  | JUndefined | JNull => false
  | JBool b => b
  | JNum n => negb (n =? 0)
  | JStr s => negb (String.eqb s "")
  end.

(** [a === b] on the values of the model. *)
Definition strict_eq (a b : jsval) : bool := bool_decide (a = b).

(** [a || b]. *)
Definition js_or (a b : jsval) : jsval := if truthy a then a else b.

(** ** Exceptions and the error monad *)

Inductive exn : Type :=
  | TypeError
  | SyntaxError
  | Error (msg : string).

Inductive result (A : Type) : Type :=
  | Ok (a : A)
  | Throw (e : exn).
Arguments Ok {A} a.
Arguments Throw {A} e.

#[global] Instance result_ret : MRet result := fun A a => Ok a.

#[global] Instance result_bind : MBind result := fun A B f m =>
  match m with
  | Ok a => f a
  | Throw e => Throw e
  end.

#[global] Instance result_fmap : FMap result := fun A B f m =>
  match m with
  | Ok a => Ok (f a)
  | Throw e => Throw e
  end.

(** [xs.filter(p)] for a callback that may throw: the elements are visited
    in order and the first exception aborts the call. *)
Fixpoint Array_filter {A} (p : A -> result bool) (xs : list A) : result (list A) :=
  match xs with
  | [] => Ok []
  | x :: xs' =>
      b ← p x;
      rest ← Array_filter p xs';
      Ok (if b : bool then x :: rest else rest)
  end.

(** ** Strings *)

(** [s.includes(searchString)]: [searchString] occurs in [s] at some index. *)
Fixpoint includes (s searchString : string) : bool :=
  String.prefix searchString s ||
  match s with
  | EmptyString => false
  | String _ s' => includes s' searchString
  end.

(** Lower-casing restricted to the letters A-Z, the behaviour of
    [String.prototype.toLowerCase] on ASCII text.  It instantiates the
    abstract [toLowerCase] below when the code is evaluated. *)
Definition ascii_lower (c : ascii) : ascii :=
  let n := N_of_ascii c in
  if ((65 <=? n) && (n <=? 90))%N then ascii_of_N (n + 32) else c.

Fixpoint ascii_toLowerCase (s : string) : string :=
  match s with
  | EmptyString => EmptyString
  | String c s' => String (ascii_lower c) (ascii_toLowerCase s')
  end.

(** [new Set(xs)] followed by spreading: the values in order of first
    insertion, a value already present (SameValueZero) being skipped. *)
Definition Set_add (s : list jsval) (v : jsval) : list jsval :=
  if decide (v ∈ s) then s else s ++ [v].

Definition Set_of (xs : list jsval) : list jsval :=
  foldl Set_add [] xs.

(** ** Component state

    The [useState] cells of [App], with their initial values. *)

Record AppState : Type := mkApp {
  resources : list Resource;
  filteredResources : list Resource;
  searchTerm : string;
  filters : jsobj;
  isLoading : bool;
  error : jsval;
  selectedResource : option Resource
}.

Definition noFilters : jsobj :=
  <["topic" := JNull]> (<["type" := JNull]> (<["conference" := JNull]> ∅)).

Definition initialState : AppState :=
  {| resources := [];
     filteredResources := [];
     searchTerm := "";
     filters := noFilters;
     isLoading := true;
     error := JNull;
     selectedResource := None |}.

Definition setResources (v : list Resource) (st : AppState) : AppState :=
  mkApp v (filteredResources st) (searchTerm st) (filters st)
        (isLoading st) (error st) (selectedResource st).

Definition setFilteredResources (v : list Resource) (st : AppState) : AppState :=
  mkApp (resources st) v (searchTerm st) (filters st)
        (isLoading st) (error st) (selectedResource st).

Definition setSearchTerm (v : string) (st : AppState) : AppState :=
  mkApp (resources st) (filteredResources st) v (filters st)
        (isLoading st) (error st) (selectedResource st).

Definition setFilters (v : jsobj) (st : AppState) : AppState :=
  mkApp (resources st) (filteredResources st) (searchTerm st) v
        (isLoading st) (error st) (selectedResource st).

Definition setIsLoading (v : bool) (st : AppState) : AppState :=
  mkApp (resources st) (filteredResources st) (searchTerm st) (filters st)
        v (error st) (selectedResource st).

Definition setError (v : jsval) (st : AppState) : AppState :=
  mkApp (resources st) (filteredResources st) (searchTerm st) (filters st)
        (isLoading st) v (selectedResource st).

Definition setSelectedResource (v : option Resource) (st : AppState) : AppState :=
  mkApp (resources st) (filteredResources st) (searchTerm st) (filters st)
        (isLoading st) (error st) v.

(** The three filter dimensions, as the render loop lists them. *)
Definition dimensions : list string := ["topic"; "type"; "conference"].

(** ** Handlers (lines 53-70) *)

Definition handleSearch (value : string) (st : AppState) : AppState :=
  setSearchTerm value st.

(** [setFilters(prev => ({ ...prev, [filterType]: value }))]. *)
Definition handleFilterChange (filterType : string) (value : jsval)
    (st : AppState) : AppState :=
  setFilters (<[filterType := value]> (filters st)) st.

Definition resetFilters (st : AppState) : AppState :=
  setSearchTerm "" (setFilters noFilters st).

Definition openResource (resource : Resource) (st : AppState) : AppState :=
  setSelectedResource (Some resource) st.

(** [getUniqueValues] (line 112) reads the [resources] state. *)
Definition getUniqueValues (st : AppState) (key : string) : list jsval :=
  Set_of ((fun item => get item key) <$> resources st).

(** The resources that are open for detail viewing. *)
Definition selection (st : AppState) : list Resource :=
  match selectedResource st with
  | None => []
  | Some r => [r]
  end.

(** ** The detail view (lines 72-110) *)

Record IframeProps : Type := mkIframe {
  src : jsval;
  width : string;
  height : string;
  frameBorder : option string;
  allow : option string;
  allowFullScreen : bool;
  title : jsval
}.

Inductive Element : Type :=
  | Iframe (props : IframeProps)
  | Paragraph (text : string).

Definition documentFrame (r : Resource) : Element :=
  Iframe {| src := get r "url"; width := "100%"; height := "500px";
            frameBorder := None; allow := None; allowFullScreen := false;
            title := get r "title" |}.

Definition videoFrame (r : Resource) : Element :=
  Iframe {| src := get r "url"; width := "560"; height := "315";
            frameBorder := Some "0";
            allow := Some "accelerometer; autoplay; clipboard-write; encrypted-media; gyroscope; picture-in-picture";
            allowFullScreen := true;
            title := get r "title" |}.

(** The [switch] compares with [===], case by case from the top. *)
Definition renderResourceContent (st : AppState) : option Element :=
  match selectedResource st with
  | None => None
  | Some r =>
      let ty := get r "type" in
      if strict_eq ty (JStr "book") || strict_eq ty (JStr "article")
      then Some (documentFrame r)
      else if strict_eq ty (JStr "video") then Some (videoFrame r)
      else if strict_eq ty (JStr "activity") then Some (documentFrame r)
      else Some (Paragraph "Unable to display this resource type.")
  end.

(** ** The rendered page (lines 114-195) *)

Inductive Action : Type :=
  | DoSearch (value : string)
  | DoFilterChange (filterType : string) (value : jsval)
  | DoReset
  | DoOpen (resource : Resource).

Definition handle (a : Action) (st : AppState) : AppState :=
  match a with
  | DoSearch value => handleSearch value st
  | DoFilterChange filterType value => handleFilterChange filterType value st
  | DoReset => resetFilters st
  | DoOpen resource => openResource resource st
  end.

Definition filterLabels : jsobj :=
  <["topic" := JStr "Topic"]>
    (<["type" := JStr "Type"]> (<["conference" := JStr "Conferences"]> ∅)).

Inductive Label : Type :=
  | AllOf (label : jsval)      (* All {label}s *)
  | Value (v : jsval).

Record Dropdown : Type := mkDropdown {
  trigger : jsval;
  items : list (Label * Action)
}.

Record CardView : Type := mkCard {
  cardKey : jsval;
  cardTitle : jsval;
  cardDescription : jsval;
  cardType : jsval;
  cardConference : jsval;
  onView : Action;
  dialogTitle : jsval;
  dialogDescription : jsval;
  dialogContent : option Element
}.

Inductive View : Type :=
  | LoadingView
  | ErrorView (message : jsval)
  | LibraryView (searchValue : string) (onReset : Action)
      (dropdowns : list Dropdown) (cards : list CardView).

Definition renderDropdown (st : AppState) (filterType : string) : Dropdown :=
  {| trigger := js_or (get (filters st) filterType) (get filterLabels filterType);
     items :=
       (AllOf (get filterLabels filterType), DoFilterChange filterType JNull)
       :: ((fun value => (Value value, DoFilterChange filterType value))
             <$> getUniqueValues st filterType) |}.

(** [selectedResource?.k]. *)
Definition selected_get (st : AppState) (k : string) : jsval :=
  match selectedResource st with
  | None => JUndefined
  | Some r => get r k
  end.

Definition renderCard (st : AppState) (resource : Resource) : CardView :=
  {| cardKey := get resource "id";
     cardTitle := get resource "title";
     cardDescription := get resource "topic";
     cardType := get resource "type";
     cardConference := get resource "conference";
     onView := DoOpen resource;
     dialogTitle := selected_get st "title";
     dialogDescription := selected_get st "type";
     dialogContent := renderResourceContent st |}.

Definition render (st : AppState) : View :=
  if isLoading st then LoadingView
  else if truthy (error st) then ErrorView (error st)
  else LibraryView (searchTerm st) DoReset
         (renderDropdown st <$> dimensions)
         (renderCard st <$> filteredResources st).

(** ** The loader (lines 22-41)

    The asynchronous function runs against the component state and the
    outside world: the list of URLs requested with [fetch] so far and the
    lines written with [console.error].  The network is an oracle giving the
    outcome of the n-th request. *)

Record Response : Type := mkResponse {
  status : Z;
  body : option (list Resource)     (* None: the body is not valid JSON *)
}.

(** [response.ok]: the status is in the range 200-299. *)
Definition ok (r : Response) : bool :=
  (200 <=? status r) && (status r <=? 299).

Inductive FetchOutcome : Type :=
  | NetworkError                     (* the promise of [fetch] rejects *)
  | Responded (r : Response).

Record World : Type := mkWorld {
  requests : list string;
  console : list (string * exn)
}.

Definition initialWorld : World := {| requests := []; console := [] |}.

Definition M (A : Type) : Type := AppState * World -> result A * (AppState * World).

#[global] Instance M_ret : MRet M := fun A a s => (Ok a, s).

#[global] Instance M_bind : MBind M := fun A B f m s =>
  match m s with
  | (Ok a, s') => f a s'
  | (Throw e, s') => (Throw e, s')
  end.

Definition throw {A} (e : exn) : M A := fun s => (Throw e, s).

Definition try_catch {A} (m : M A) (handler : exn -> M A) : M A := fun s =>
  match m s with
  | (Ok a, s') => (Ok a, s')
  | (Throw e, s') => handler e s'
  end.

(** A state setter called from the asynchronous function. *)
Definition set (f : AppState -> AppState) : M unit := fun s =>
  (Ok tt, (f s.1, s.2)).

Definition fetch (net : nat -> FetchOutcome) (url : string) : M Response := fun s =>
  let w := {| requests := requests s.2 ++ [url]; console := console s.2 |} in
  match net (List.length (requests s.2)) with
  | NetworkError => (Throw TypeError, (s.1, w))
  | Responded r => (Ok r, (s.1, w))
  end.

Definition json (r : Response) : M (list Resource) :=
  match body r with
  | Some data => mret data
  | None => throw SyntaxError
  end.

Definition console_error (msg : string) (e : exn) : M unit := fun s =>
  (Ok tt, (s.1, {| requests := requests s.2; console := console s.2 ++ [(msg, e)] |})).

Definition fetchResources (net : nat -> FetchOutcome) : M unit :=
  try_catch
    (response ← fetch net "/resources.json";
     _ ← (if negb (ok response)
          then throw (Error ("HTTP error! status: " +:+ pretty (status response)))
          else mret tt);
     data ← json response;
     _ ← set (setResources data);
     _ ← set (setFilteredResources data);
     set (setIsLoading false))
    (fun e =>
     _ ← console_error "Could not fetch resources:" e;
     _ ← set (setError (JStr "Failed to load resources. Please try again later."));
     set (setIsLoading false)).

(** ** The filter engine (lines 43-51) *)

Section Filtering.

(** [String.prototype.toLowerCase], a built-in of the language. *)
Variable toLowerCase : string -> string.

(** [v.toLowerCase()] where [v] was read from a property: only a string
    has the method; on [undefined] and [null] the property access throws,
    on a number or a boolean the call does. *)
Definition call_toLowerCase (v : jsval) : result string :=
  match v with
  | JStr s => Ok (toLowerCase s)
  | _ => Throw TypeError
  end.

(** [!filters.key || resource.key === filters.key]. *)
Definition dimensionOk (fs : jsobj) (resource : Resource) (key : string) : bool :=
  negb (truthy (get fs key)) || strict_eq (get resource key) (get fs key).

(** The callback given to [resources.filter]. *)
Definition passes (term : string) (fs : jsobj) (resource : Resource) : result bool :=
  lowered ← call_toLowerCase (get resource "title");
  Ok (includes lowered (toLowerCase term)
      && dimensionOk fs resource "topic"
      && dimensionOk fs resource "type"
      && dimensionOk fs resource "conference").

Definition filterResources (rs : list Resource) (term : string) (fs : jsobj)
    : result (list Resource) :=
  Array_filter (passes term fs) rs.

(** The effect with dependencies [searchTerm, filters, resources]. *)
Definition filterEffect (st : AppState) : result AppState :=
  filtered ← filterResources (resources st) (searchTerm st) (filters st);
  Ok (setFilteredResources filtered st).

End Filtering.

(** ** The example collection of the specification *)

Definition mkResource (id : Z) (ttl topic type conference url : string) : Resource :=
  <["id" := JNum id]> (<["title" := JStr ttl]> (<["topic" := JStr topic]>
    (<["type" := JStr type]> (<["conference" := JStr conference]>
      (<["url" := JStr url]> ∅))))).

Definition introToGraphs : Resource :=
  mkResource 1 "Intro to Graphs" "CS" "book" "X" "/graphs.pdf".

Definition advancedML : Resource :=
  mkResource 2 "Advanced ML" "AI" "video" "Y" "/ml.mp4".

Definition library : list Resource := [introToGraphs; advancedML].

Definition select (k : string) (v : jsval) : jsobj := <[k := v]> noFilters.

(** A record without a title, and one whose topic is the empty string. *)
Definition untitled : Resource :=
  <["id" := JNum 3]> (<["topic" := JStr "CS"]> (<["type" := JStr "book"]>
    (<["conference" := JStr "X"]> (<["url" := JStr "/notes.pdf"]> ∅)))).

Definition uncategorised : Resource :=
  mkResource 4 "Loose Notes" "" "article" "X" "/loose.html".

(** A record of a type the detail view has no case for. *)
Definition slideDeck : Resource :=
  mkResource 5 "Field Notes" "CS" "slides" "X" "/deck.key".

(** ** The filter as the specification words it

    "A resource passes the filter iff its title contains the search term as
    a case-insensitive substring, and for each filter dimension with a
    non-null selection, the resource's corresponding attribute equals that
    selection exactly."  [meets] is parametrised by what counts as a
    selection that constrains: [chosen_nonnull] is the specification's
    reading, [chosen_truthy] the guard the code tests. *)

Section Specification.

Variable toLowerCase : string -> string.

Definition contains_ci (ttl term : string) : Prop :=
  ∃ before after, toLowerCase ttl = before +:+ toLowerCase term +:+ after.

Definition chosen_nonnull (selection : jsval) : Prop := selection ≠ JNull.

Definition chosen_truthy (selection : jsval) : Prop := truthy selection = true.

Definition meets (chosen : jsval -> Prop) (term : string) (fs : jsobj)
    (r : Resource) : Prop :=
  (∃ ttl, get r "title" = JStr ttl ∧ contains_ci ttl term) ∧
  ∀ key, key ∈ dimensions → chosen (get fs key) → get r key = get fs key.

End Specification.

(** [kept P xs ys]: [ys] consists of exactly the elements of [xs] that
    satisfy [P], in the order and with the multiplicity they have in [xs]. *)
Inductive kept {A} (P : A -> Prop) : list A -> list A -> Prop :=
  | kept_nil : kept P [] []
  | kept_take x xs ys : P x -> kept P xs ys -> kept P (x :: xs) (x :: ys)
  | kept_drop x xs ys : ¬ P x -> kept P xs ys -> kept P (x :: xs) ys.

(** Every record of the collection has a string for a title, as the data
    model of the specification has it. *)
Definition titled (rs : list Resource) : Prop :=
  Forall (fun r => ∃ ttl, get r "title" = JStr ttl) rs.

(** A load that fails: transport error, or a response outside 200-299. *)
Definition load_fails (o : FetchOutcome) : Prop :=
  match o with
  | NetworkError => True
  | Responded r => ¬ (200 <= status r <= 299)
  end.

Definition failureMessage : jsval :=
  JStr "Failed to load resources. Please try again later.".

(** Concrete states for evaluation: the example collection loaded, and a
    collection in which one record has the empty string for a topic, that
    value having been picked from the topic dropdown. *)
Definition loaded (rs : list Resource) : AppState :=
  setIsLoading false (setFilteredResources rs (setResources rs initialState)).

Definition emptyTopicPicked : AppState :=
  handleFilterChange "topic" (JStr "") (loaded [uncategorised; introToGraphs]).

(** ** A session: handlers followed by the effect

    A handler changes state, the component renders again, and the filtering
    effect runs when one of its dependencies [searchTerm, filters,
    resources] differs from the previous render: a new search string, or a
    new [filters] object, which [handleFilterChange] and [resetFilters]
    always build; [openResource] touches none of the three. *)

Definition effectDue (a : Action) (st : AppState) : bool :=
  match a with
  | DoSearch value => negb (String.eqb value (searchTerm st))
  | DoFilterChange _ _ => true
  | DoReset => true
  | DoOpen _ => false
  end.

Section Session.

Variable toLowerCase : string -> string.

Definition step (a : Action) (st : AppState) : result AppState :=
  if effectDue a st then filterEffect toLowerCase (handle a st) else Ok (handle a st).

Fixpoint run (actions : list Action) (st : AppState) : result AppState :=
  match actions with
  | [] => Ok st
  | a :: rest => st' ← step a st; run rest st'
  end.

(** The list on screen is the filter of the collection under the current
    search term and selections. *)
Definition consistent (st : AppState) : Prop :=
  filterResources toLowerCase (resources st) (searchTerm st) (filters st)
  = Ok (filteredResources st).

End Session.

(** A state in which the second action of a session finds work to do. *)
Definition browsing : list Action :=
  [DoSearch "a"; DoFilterChange "topic" (JStr "AI"); DoOpen advancedML; DoSearch "a"].

(** The state that session reaches from the loaded example collection. *)
Definition browsed : AppState :=
  setSelectedResource (Some advancedML)
    (setFilteredResources [advancedML]
       (setFilters (select "topic" (JStr "AI")) (setSearchTerm "a" (loaded library)))).

(** The example collection with the topic of its first record removed. *)
Definition topicless : Resource := delete "topic" introToGraphs.

(** * Properties *)

(** ** Evaluation on the examples of the specification *)

Example example_search :
  filterResources ascii_toLowerCase library "graph" noFilters = Ok [introToGraphs].
Proof. vm_compute. reflexivity. Qed.

Example example_topic :
  filterResources ascii_toLowerCase library "" (select "topic" (JStr "AI")) = Ok [advancedML].
Proof. vm_compute. reflexivity. Qed.

Example example_both :
  filterResources ascii_toLowerCase library "a" (select "topic" (JStr "AI")) = Ok [advancedML].
Proof. vm_compute. reflexivity. Qed.

Example example_reset :
  filterEffect ascii_toLowerCase
    (resetFilters (handleSearch "a" (handleFilterChange "topic" (JStr "AI") (loaded library))))
  = Ok (loaded library).
Proof. vm_compute. reflexivity. Qed.

Example example_topics :
  getUniqueValues (loaded [introToGraphs; advancedML; introToGraphs]) "topic"
  = [JStr "CS"; JStr "AI"].
Proof. vm_compute. reflexivity. Qed.

Example example_missing_topic :
  filterResources ascii_toLowerCase
    [delete "topic" introToGraphs; advancedML] "" (select "topic" (JStr "AI"))
  = Ok [advancedML].
Proof. vm_compute. reflexivity. Qed.

Example example_video :
  renderResourceContent (openResource advancedML (loaded library))
  = Some (videoFrame advancedML).
Proof. vm_compute. reflexivity. Qed.

Example example_load_500 :
  fetchResources (fun _ => Responded (mkResponse 500 None)) (initialState, initialWorld)
  = (Ok tt, (setIsLoading false (setError (JStr "Failed to load resources. Please try again later.") initialState),
             mkWorld ["/resources.json"] [("Could not fetch resources:", Error "HTTP error! status: 500")])).
Proof. vm_compute. reflexivity. Qed.

(** ** Strings: [includes] is the substring test *)

Lemma append_String (c : ascii) (s t : string) :
  String c s +:+ t = String c (s +:+ t).
Proof. reflexivity. Qed.

Lemma append_empty (t : string) : "" +:+ t = t.
Proof. reflexivity. Qed.

Lemma prefix_spec (p s : string) :
  String.prefix p s = true ↔ ∃ rest, s = p +:+ rest.
Proof.
  revert s. induction p as [|a p IH]; intros s.
  - destruct s; simpl; split; eauto.
  - destruct s as [|b s]; simpl.
    + split; [discriminate | intros [rest Hrest]; discriminate].
    + destruct (ascii_dec a b) as [->|Hne].
      * rewrite IH. split; intros [rest Hrest]; exists rest;
          rewrite append_String in *; congruence.
      * split; [discriminate |].
        intros [rest Hrest]. rewrite append_String in Hrest. congruence.
Qed.

Lemma includes_nil (term : string) :
  includes "" term = String.prefix term "" || false.
Proof. reflexivity. Qed.

Lemma includes_String (c : ascii) (s term : string) :
  includes (String c s) term = String.prefix term (String c s) || includes s term.
Proof. reflexivity. Qed.

Lemma includes_spec (s term : string) :
  includes s term = true ↔ ∃ before after, s = before +:+ term +:+ after.
Proof.
  induction s as [|c s IH]; [rewrite includes_nil | rewrite includes_String].
  - rewrite orb_false_r, prefix_spec. split.
    + intros [rest Hrest]. by exists "", rest.
    + intros [before [after H]]. destruct before; [eauto | discriminate].
  - rewrite orb_true_iff, prefix_spec, IH. split.
    + intros [[rest Hrest] | [before [after H]]].
      * by exists "", rest.
      * exists (String c before), after. by rewrite append_String, H.
    + intros [before [after H]]. destruct before as [|c' before].
      * left. eauto.
      * right. exists before, after. rewrite append_String in H. congruence.
Qed.

Lemma includes_empty (s : string) : includes s "" = true.
Proof. apply includes_spec. by exists "", s. Qed.

(** ** The error monad: [Array_filter] with a callback that returns *)

Lemma Array_filter_kept {A} (p : A -> result bool) (P : A -> Prop) (xs : list A) :
  Forall (fun x => ∃ b : bool, p x = Ok b ∧ (b = true ↔ P x)) xs →
  ∃ ys, Array_filter p xs = Ok ys ∧ kept P xs ys.
Proof.
  induction 1 as [|x xs [b [Hb HP]] _ [ys [Hys Hkept]]]; simpl.
  - exists []. split; [done | constructor].
  - rewrite Hb, Hys. simpl. destruct b.
    + exists (x :: ys). split; [done |]. constructor; [by apply HP | done].
    + exists ys. split; [done |]. apply kept_drop; [|done].
      intros HPx. apply HP in HPx. discriminate.
Qed.

Lemma Array_filter_sublist {A} (p : A -> result bool) (xs ys : list A) :
  Array_filter p xs = Ok ys → sublist ys xs.
Proof.
  revert ys. induction xs as [|x xs IH]; simpl; intros ys H.
  - by inversion H.
  - destruct (p x) as [b|]; simpl in H; [|discriminate].
    destruct (Array_filter p xs) as [rest|]; simpl in H; [|discriminate].
    inversion H; subst. destruct b.
    + by apply sublist_skip, IH.
    + by apply sublist_cons, IH.
Qed.

Lemma Array_filter_ext {A} (p q : A -> result bool) (xs : list A) :
  (∀ x, x ∈ xs → p x = q x) → Array_filter p xs = Array_filter q xs.
Proof.
  induction xs as [|x xs IH]; simpl; intros H; [done |].
  rewrite (H x) by left. rewrite IH; [done |].
  intros y Hy. apply H. by right.
Qed.

Lemma kept_elem_of {A} (P : A -> Prop) (xs ys : list A) :
  kept P xs ys → ∀ x, x ∈ ys ↔ x ∈ xs ∧ P x.
Proof.
  induction 1 as [|x xs ys HP _ IH|x xs ys HP _ IH]; intros y.
  - split; [inversion 1 | intros [H _]; inversion H].
  - rewrite !elem_of_cons, IH. split.
    + intros [-> | [Hin HPy]]; (split; [by auto | done]).
    + intros [[-> | Hin] HPy]; [by left | by right].
  - rewrite elem_of_cons, IH. split.
    + intros [Hin HPy]. split; [by right | done].
    + intros [[-> | Hin] HPy]; [contradiction | done].
Qed.

Lemma kept_all {A} (P : A -> Prop) (xs : list A) :
  Forall P xs → ∀ ys, kept P xs ys → ys = xs.
Proof.
  induction 1 as [|x xs HP _ IH]; intros ys Hk; inversion Hk; subst.
  - done.
  - f_equal. by apply IH.
  - done.
Qed.

(** ** Insertion-ordered sets *)

Lemma Set_add_elem_of (s : list jsval) (v x : jsval) :
  x ∈ Set_add s v ↔ x ∈ s ∨ x = v.
Proof.
  unfold Set_add. destruct (decide (v ∈ s)) as [Hin|Hout].
  - split; [by left | intros [H | ->]; done].
  - rewrite elem_of_app, list_elem_of_singleton. done.
Qed.

Lemma Set_add_NoDup (s : list jsval) (v : jsval) :
  NoDup s → NoDup (Set_add s v).
Proof.
  intros Hs. unfold Set_add. destruct (decide (v ∈ s)) as [Hin|Hout]; [done |].
  apply NoDup_app. split; [done |]. split.
  - intros x Hx Hv. apply list_elem_of_singleton in Hv. by subst.
  - apply NoDup_singleton.
Qed.

Lemma foldl_Set_add (xs acc : list jsval) :
  NoDup acc →
  NoDup (foldl Set_add acc xs) ∧
  ∀ x, x ∈ foldl Set_add acc xs ↔ x ∈ acc ∨ x ∈ xs.
Proof.
  revert acc. induction xs as [|v xs IH]; simpl; intros acc Hacc.
  - split; [done |]. intros x. split; [by left | intros [H | H]; [done | inversion H]].
  - destruct (IH (Set_add acc v) (Set_add_NoDup acc v Hacc)) as [Hnd Hel].
    split; [done |]. intros x. rewrite Hel, Set_add_elem_of, elem_of_cons. tauto.
Qed.

Lemma Set_of_NoDup (xs : list jsval) : NoDup (Set_of xs).
Proof. apply foldl_Set_add, NoDup_nil_2. Qed.

Lemma Set_of_elem_of (xs : list jsval) (x : jsval) : x ∈ Set_of xs ↔ x ∈ xs.
Proof.
  unfold Set_of. destruct (foldl_Set_add xs [] (NoDup_nil_2)) as [_ Hel].
  rewrite Hel. split; [intros [H | H]; [inversion H | done] | by right].
Qed.

(** ** The filter engine *)

Section FilterProperties.

Variable toLowerCase : string -> string.

Lemma dimensionOk_spec (fs : jsobj) (r : Resource) (key : string) :
  dimensionOk fs r key = true ↔ (chosen_truthy (get fs key) → get r key = get fs key).
Proof.
  unfold dimensionOk, chosen_truthy, strict_eq.
  destruct (truthy (get fs key)); simpl.
  - rewrite bool_decide_eq_true. split; [by intros H _ | by intros H; apply H].
  - split; [by intros _ H | done].
Qed.

Lemma dimensions_spec (fs : jsobj) (r : Resource) :
  dimensionOk fs r "topic" && dimensionOk fs r "type"
    && dimensionOk fs r "conference" = true
  ↔ ∀ key, key ∈ dimensions → chosen_truthy (get fs key) → get r key = get fs key.
Proof.
  rewrite !andb_true_iff, !dimensionOk_spec. unfold dimensions. split.
  - intros [[Htopic Htype] Hconf] key Hkey.
    repeat (apply elem_of_cons in Hkey as [-> | Hkey]; [done |]).
    inversion Hkey.
  - intros H. repeat split; apply H; repeat constructor.
Qed.

Lemma passes_titled (term : string) (fs : jsobj) (r : Resource) (ttl : string) :
  get r "title" = JStr ttl →
  ∃ b : bool, passes toLowerCase term fs r = Ok b
              ∧ (b = true ↔ meets toLowerCase chosen_truthy term fs r).
Proof.
  intros Httl. unfold passes. rewrite Httl. simpl. eexists. split; [reflexivity |].
  rewrite <- !andb_assoc, andb_true_iff, andb_assoc, dimensions_spec, includes_spec.
  unfold meets, contains_ci. rewrite Httl. split.
  - intros [Hsub Hdims]. split; [by exists ttl | done].
  - intros [[ttl' [Heq Hsub]] Hdims]. by inversion Heq; subst.
Qed.

Lemma passes_untitled (term : string) (fs : jsobj) (r : Resource) :
  (∀ ttl, get r "title" ≠ JStr ttl) → passes toLowerCase term fs r = Throw TypeError.
Proof.
  intros Hno. unfold passes. destruct (get r "title") as [| | | |ttl]; try done.
  by destruct (Hno ttl).
Qed.

Lemma passes_throws (term : string) (fs : jsobj) (r : Resource) (e : exn) :
  passes toLowerCase term fs r = Throw e → e = TypeError.
Proof.
  unfold passes. destruct (get r "title"); simpl; intros H; congruence.
Qed.

Lemma filterResources_titled (rs : list Resource) (term : string) (fs : jsobj) :
  titled rs →
  ∃ filtered, filterResources toLowerCase rs term fs = Ok filtered
              ∧ kept (meets toLowerCase chosen_truthy term fs) rs filtered.
Proof.
  intros Hrs. apply Array_filter_kept.
  eapply Forall_impl; [exact Hrs |].
  intros r [ttl Httl]. by apply passes_titled with ttl.
Qed.

Lemma contains_ci_empty (ttl : string) :
  toLowerCase "" = "" → contains_ci toLowerCase ttl "".
Proof.
  intros Hempty. unfold contains_ci. rewrite Hempty.
  by exists "", (toLowerCase ttl).
Qed.

Lemma noFilters_unconstrained (key : string) : ¬ chosen_truthy (get noFilters key).
Proof.
  unfold chosen_truthy, get, noFilters.
  destruct (decide (key = "topic")) as [-> | H1]; [by rewrite lookup_insert_eq |].
  rewrite lookup_insert_ne by done.
  destruct (decide (key = "type")) as [-> | H2]; [by rewrite lookup_insert_eq |].
  rewrite lookup_insert_ne by done.
  destruct (decide (key = "conference")) as [-> | H3]; [by rewrite lookup_insert_eq |].
  rewrite lookup_insert_ne by done.
  by rewrite lookup_empty.
Qed.

Lemma filterResources_reset (rs : list Resource) :
  toLowerCase "" = "" → titled rs →
  filterResources toLowerCase rs "" noFilters = Ok rs.
Proof.
  intros Hempty Hrs.
  destruct (filterResources_titled rs "" noFilters Hrs) as [filtered [Hrun Hkept]].
  rewrite Hrun. f_equal. eapply kept_all; [|exact Hkept].
  eapply Forall_impl; [exact Hrs |].
  intros r [ttl Httl]. split.
  - exists ttl. split; [done | by apply contains_ci_empty].
  - intros key _ Hchosen. by destruct (noFilters_unconstrained key).
Qed.

Lemma filterResources_untitled (rs : list Resource) (term : string) (fs : jsobj)
    (r : Resource) :
  r ∈ rs → (∀ ttl, get r "title" ≠ JStr ttl) →
  filterResources toLowerCase rs term fs = Throw TypeError.
Proof.
  intros Hin Hno. unfold filterResources.
  induction rs as [|x rs IH]; [inversion Hin |]. simpl.
  destruct (passes toLowerCase term fs x) as [b|e] eqn:Hx; simpl.
  - apply elem_of_cons in Hin as [-> | Hin].
    + rewrite passes_untitled in Hx by done. discriminate.
    + by rewrite IH.
  - by rewrite (passes_throws _ _ _ _ Hx).
Qed.

(** The effect returns only on a collection whose titles are strings:
    with the page on screen, and so a handler to invoke, the collection
    is [titled]. *)
Lemma filterResources_returns_titled (rs filtered : list Resource) (term : string)
    (fs : jsobj) :
  filterResources toLowerCase rs term fs = Ok filtered → titled rs.
Proof.
  unfold filterResources, titled. revert filtered.
  induction rs as [|x rs IH]; simpl; intros filtered Hrun; [constructor |].
  destruct (passes toLowerCase term fs x) as [b|e] eqn:Hx; [|discriminate].
  simpl in Hrun.
  destruct (Array_filter (passes toLowerCase term fs) rs) as [rest|e] eqn:Hrest;
    [|discriminate].
  constructor; [|by eapply IH].
  unfold passes in Hx. destruct (get x "title") as [| | | |ttl]; try discriminate.
  by exists ttl.
Qed.

End FilterProperties.

(** ** Claims about the filter engine *)

Section FilterClaims.

Variable toLowerCase : string -> string.

(** C1, amended: for every collection whose records have string titles,
    every search term and every filter selection, the filtering effect
    returns, and the filtered list consists of exactly the resources (in
    collection order) whose title contains the search term as a
    case-insensitive substring and whose topic, type and conference equal
    the selection in every dimension whose selection is truthy, that is
    neither null nor the empty string; the empty search term is contained
    in every title. *)
Theorem filterEffect_exact (st : AppState) :
  toLowerCase "" = "" →
  titled (resources st) →
  ∃ st', filterEffect toLowerCase st = Ok st'
    ∧ kept (meets toLowerCase chosen_truthy (searchTerm st) (filters st))
           (resources st) (filteredResources st')
    ∧ (∀ r, r ∈ filteredResources st'
            ↔ r ∈ resources st
              ∧ meets toLowerCase chosen_truthy (searchTerm st) (filters st) r)
    ∧ (∀ ttl, contains_ci toLowerCase ttl "").
Proof.
  intros Hempty Hrs.
  destruct (filterResources_titled toLowerCase _ (searchTerm st) (filters st) Hrs)
    as [filtered [Hrun Hkept]].
  exists (setFilteredResources filtered st). unfold filterEffect.
  rewrite Hrun. simpl. split; [done |]. split; [done |]. split.
  - by apply kept_elem_of.
  - intros ttl. by apply contains_ci_empty.
Qed.

(** C4: from any search term and filter selections, reset sets the three
    selections to null and the search term to the empty string in one
    handler, and the filtering effect that follows makes the filtered list
    the full collection. *)
Theorem resetFilters_restores (st : AppState) :
  toLowerCase "" = "" →
  titled (resources st) →
  get (filters (resetFilters st)) "topic" = JNull
  ∧ get (filters (resetFilters st)) "type" = JNull
  ∧ get (filters (resetFilters st)) "conference" = JNull
  ∧ searchTerm (resetFilters st) = ""
  ∧ resources (resetFilters st) = resources st
  ∧ filterEffect toLowerCase (resetFilters st)
    = Ok (setFilteredResources (resources st) (resetFilters st)).
Proof.
  intros Hempty Hrs. repeat split.
  unfold filterEffect. simpl.
  by rewrite (filterResources_reset toLowerCase (resources st) Hempty Hrs).
Qed.

(** C7: a record without a title makes the filtering effect throw a
    TypeError instead of completing: the claim fails on this input. *)
Theorem filterEffect_untitled_throws :
  untitled !! "title" = None
  ∧ filterEffect toLowerCase (loaded [introToGraphs; untitled]) = Throw TypeError.
Proof.
  split; [reflexivity |]. unfold filterEffect.
  rewrite (filterResources_untitled toLowerCase _ _ _ untitled); [done | | done].
  simpl. right. left.
Qed.

(** C8: the result of the filtering effect is determined by the
    collection, the search term and the selections (no other piece of
    state enters), the effect leaves the collection as it was, and what it
    returns is a sub-list of the collection's own records. *)
Theorem filterEffect_pure (st1 st2 : AppState) :
  resources st1 = resources st2 →
  searchTerm st1 = searchTerm st2 →
  filters st1 = filters st2 →
  filteredResources <$> filterEffect toLowerCase st1
    = filteredResources <$> filterEffect toLowerCase st2
  ∧ resources <$> filterEffect toLowerCase st1
    = (fun _ => resources st1) <$> filterEffect toLowerCase st1
  ∧ (∀ st', filterEffect toLowerCase st1 = Ok st'
            → sublist (filteredResources st') (resources st1)).
Proof.
  intros Hrs Hterm Hfs. unfold filterEffect. rewrite Hrs, Hterm, Hfs.
  destruct (filterResources toLowerCase (resources st2) (searchTerm st2) (filters st2))
    as [filtered|e] eqn:Hrun; simpl.
  - split; [done |]. split; [by rewrite Hrs |].
    intros st' Hst'. inversion Hst'; subst. simpl.
    by eapply Array_filter_sublist.
  - split; [done |]. split; [done |]. intros st' Hst'. discriminate.
Qed.

(** C9: a dimension whose selection is the empty string is unconstrained:
    every resource passes its test, and the effect filters as it does
    with null selected in that dimension. *)
Theorem empty_selection_unconstrained (st : AppState) (key : string) :
  get (filters st) key = JStr "" →
  (∀ r, dimensionOk (filters st) r key = true)
  ∧ filteredResources <$> filterEffect toLowerCase st
    = filteredResources <$> filterEffect toLowerCase (handleFilterChange key JNull st).
Proof.
  intros Hsel.
  assert (Hdim : ∀ r k, dimensionOk (filters st) r k
                        = dimensionOk (<[key := JNull]> (filters st)) r k).
  { intros r k. unfold dimensionOk, get. destruct (decide (k = key)) as [-> | Hne].
    - fold (get (filters st) key). rewrite Hsel, lookup_insert_eq. done.
    - by rewrite lookup_insert_ne. }
  split.
  - intros r. unfold dimensionOk. by rewrite Hsel.
  - unfold filterEffect, filterResources. simpl.
    rewrite (Array_filter_ext _ (passes toLowerCase (searchTerm st)
                                   (<[key := JNull]> (filters st)))).
    + by destruct (Array_filter _ _).
    + intros r _. unfold passes. by rewrite !Hdim.
Qed.

(** C2: for every dimension the list of available values has no
    duplicates and holds exactly the attribute values that occur in the
    full collection; the search term, the selections, a reset and the
    filtering effect leave it as it is. *)
Theorem getUniqueValues_full_collection (st : AppState) (key : string) :
  NoDup (getUniqueValues st key)
  ∧ (∀ v, v ∈ getUniqueValues st key ↔ ∃ r, r ∈ resources st ∧ get r key = v)
  ∧ (∀ term, getUniqueValues (handleSearch term st) key = getUniqueValues st key)
  ∧ (∀ filterType value,
       getUniqueValues (handleFilterChange filterType value st) key
       = getUniqueValues st key)
  ∧ getUniqueValues (resetFilters st) key = getUniqueValues st key
  ∧ (fun st' => getUniqueValues st' key) <$> filterEffect toLowerCase st
    = (fun _ => getUniqueValues st key) <$> filterEffect toLowerCase st.
Proof.
  split; [apply Set_of_NoDup |]. split.
  { intros v. unfold getUniqueValues. rewrite Set_of_elem_of, list_elem_of_fmap.
    split; intros [r [H1 H2]]; exists r; by split. }
  repeat split. unfold filterEffect.
  by destruct (filterResources _ _ _ _).
Qed.

End FilterClaims.

(** ** Claims about the handlers, the loader and the detail view *)

(** C10: the filter-change handler updates the named dimension and nothing
    else: every other key of [filters] reads as before, and the search term
    and the remaining state are unchanged. *)
Theorem handleFilterChange_frame (filterType : string) (value : jsval) (st : AppState) :
  (∀ key, filters (handleFilterChange filterType value st) !! key
          = if decide (key = filterType) then Some value else filters st !! key)
  ∧ get (filters (handleFilterChange filterType value st)) filterType = value
  ∧ searchTerm (handleFilterChange filterType value st) = searchTerm st
  ∧ resources (handleFilterChange filterType value st) = resources st
  ∧ filteredResources (handleFilterChange filterType value st) = filteredResources st
  ∧ isLoading (handleFilterChange filterType value st) = isLoading st
  ∧ error (handleFilterChange filterType value st) = error st
  ∧ selectedResource (handleFilterChange filterType value st) = selectedResource st.
Proof.
  split.
  - intros key. simpl. rewrite lookup_insert. destruct (decide (key = filterType)) as [-> | Hne].
    + by rewrite decide_True.
    + by rewrite decide_False.
  - split; [|done]. unfold get. simpl. by rewrite lookup_insert_eq.
Qed.

(** C5: the selection holds at most one resource in every state, and opening
    A and then B leaves B alone selected, the state being the one reached by
    opening B directly. *)
Theorem openResource_replaces (a b : Resource) (st : AppState) :
  (List.length (selection st) ≤ 1)%nat
  ∧ selection (openResource b (openResource a st)) = [b]
  ∧ selectedResource (openResource b (openResource a st)) = Some b
  ∧ openResource b (openResource a st) = openResource b st.
Proof.
  split; [|done]. unfold selection. destruct (selectedResource st); simpl; lia.
Qed.

(** C6: the detail view dispatches on the type of the selected resource:
    book, article and activity give a frame of width 100% and height 500px
    on the resource's url; video gives a frame of 560 by 315 with the media
    permissions and full screen allowed; any other type gives the fallback
    message. *)
Theorem renderResourceContent_dispatch (st : AppState) (r : Resource) :
  selectedResource st = Some r →
  (get r "type" ∈ [JStr "book"; JStr "article"; JStr "activity"] →
     ∃ p, renderResourceContent st = Some (Iframe p)
          ∧ src p = get r "url" ∧ width p = "100%" ∧ height p = "500px"
          ∧ allow p = None ∧ allowFullScreen p = false)
  ∧ (get r "type" = JStr "video" →
     ∃ p, renderResourceContent st = Some (Iframe p)
          ∧ src p = get r "url" ∧ width p = "560" ∧ height p = "315"
          ∧ allow p = Some "accelerometer; autoplay; clipboard-write; encrypted-media; gyroscope; picture-in-picture"
          ∧ allowFullScreen p = true)
  ∧ (get r "type" ∉ [JStr "book"; JStr "article"; JStr "video"; JStr "activity"] →
     renderResourceContent st = Some (Paragraph "Unable to display this resource type.")).
Proof.
  intros Hsel. unfold renderResourceContent. rewrite Hsel. simpl. split; [|split].
  - intros Hty. exists (mkIframe (get r "url") "100%" "500px" None None false (get r "title")).
    split; [|done].
    repeat (apply elem_of_cons in Hty as [-> | Hty]; [done |]). inversion Hty.
  - intros ->. by eexists.
  - intros Hty. unfold strict_eq.
    rewrite !bool_decide_eq_false_2; [done | | | |];
      intros Heq; apply Hty; rewrite Heq; repeat constructor.
Qed.

(** A load that succeeds leaves the state [loaded data]: the concrete
    states used above are the ones the loader produces. *)
Lemma fetchResources_success (net : nat → FetchOutcome) (code : Z)
    (data : list Resource) :
  net 0%nat = Responded (mkResponse code (Some data)) →
  200 <= code <= 299 →
  fetchResources net (initialState, initialWorld)
  = (Ok tt, (loaded data, mkWorld ["/resources.json"] [])).
Proof.
  intros Hnet [Hlo Hhi].
  unfold fetchResources, try_catch, mbind, M_bind, fetch. simpl. rewrite Hnet.
  unfold ok. simpl.
  apply Z.leb_le in Hlo, Hhi. rewrite Hlo, Hhi. reflexivity.
Qed.

(** C3: when the one request of the loader fails, by a transport error or
    by a response whose status is outside 200-299, the loader ends in the
    state with the error message set, loading marked complete and both
    resource lists still empty; exactly one request was issued; the page
    rendered from that state is the error message. *)
Theorem fetchResources_failure (net : nat → FetchOutcome) :
  load_fails (net 0%nat) →
  ∃ st w, fetchResources net (initialState, initialWorld) = (Ok tt, (st, w))
    ∧ error st = failureMessage
    ∧ isLoading st = false
    ∧ resources st = []
    ∧ filteredResources st = []
    ∧ requests w = ["/resources.json"]
    ∧ render st = ErrorView failureMessage.
Proof.
  intros Hfail. unfold fetchResources, try_catch, mbind, M_bind, fetch. simpl.
  destruct (net 0%nat) as [|r]; simpl.
  - do 2 eexists. split; [reflexivity |]. by repeat split.
  - assert (Hok : ok r = false).
    { unfold ok. simpl in Hfail.
      destruct (200 <=? status r) eqn:H1; [|done].
      destruct (status r <=? 299) eqn:H2; [|done].
      apply Z.leb_le in H1, H2. lia. }
    rewrite Hok. simpl. do 2 eexists. split; [reflexivity |]. by repeat split.
Qed.

(** ** The claims at concrete inputs *)

Lemma library_titled : titled library.
Proof.
  repeat (apply Forall_cons_2; [eexists; reflexivity |]). apply Forall_nil_2.
Defined.

Lemma filterEffect_exact_witness :
  ∃ st', filterEffect ascii_toLowerCase (handleSearch "graph" (loaded library)) = Ok st'
    ∧ (∀ r, r ∈ filteredResources st'
            ↔ r ∈ library ∧ meets ascii_toLowerCase chosen_truthy "graph" noFilters r).
Proof.
  destruct (filterEffect_exact ascii_toLowerCase (handleSearch "graph" (loaded library))
              eq_refl library_titled) as (st' & Hrun & _ & Hmem & _).
  exists st'. split; [exact Hrun | exact Hmem].
Defined.

(** C1 as stated fails: with the empty string picked as the topic, a
    resource whose topic is "CS" is returned, although the selection is
    non-null and differs from its topic. *)
Lemma filterEffect_nonnull_counterexample :
  ∃ st', filterEffect ascii_toLowerCase emptyTopicPicked = Ok st'
    ∧ ¬ (∀ r, r ∈ filteredResources st'
              ↔ r ∈ resources emptyTopicPicked
                ∧ meets ascii_toLowerCase chosen_nonnull
                    (searchTerm emptyTopicPicked) (filters emptyTopicPicked) r).
Proof.
  exists (setFilteredResources [uncategorised; introToGraphs] emptyTopicPicked).
  split; [vm_compute; reflexivity |].
  intros Hclaim. destruct (Hclaim introToGraphs) as [Hmeets _].
  destruct Hmeets as [_ [_ Hdims]]; [simpl; right; left |].
  specialize (Hdims "topic"). vm_compute in Hdims.
  assert (Heq : JStr "CS" = JStr "").
  { apply Hdims; [left | discriminate]. }
  discriminate Heq.
Qed.

Lemma resetFilters_restores_witness :
  searchTerm (resetFilters emptyTopicPicked) = ""
  ∧ filterEffect ascii_toLowerCase (resetFilters emptyTopicPicked)
    = Ok (setFilteredResources [uncategorised; introToGraphs]
            (resetFilters emptyTopicPicked)).
Proof.
  assert (Htitled : titled (resources emptyTopicPicked)).
  { repeat (apply Forall_cons_2; [eexists; reflexivity |]). apply Forall_nil_2. }
  destruct (resetFilters_restores ascii_toLowerCase emptyTopicPicked eq_refl Htitled)
    as (_ & _ & _ & Hterm & _ & Hrun).
  split; [exact Hterm | exact Hrun].
Defined.

Lemma filterEffect_pure_witness :
  filteredResources <$> filterEffect ascii_toLowerCase (loaded library)
  = filteredResources <$> filterEffect ascii_toLowerCase
                            (openResource advancedML (loaded library)).
Proof.
  exact (proj1 (filterEffect_pure ascii_toLowerCase (loaded library)
                  (openResource advancedML (loaded library)) eq_refl eq_refl eq_refl)).
Defined.

Lemma empty_selection_unconstrained_witness :
  dimensionOk (filters emptyTopicPicked) introToGraphs "topic" = true
  ∧ filteredResources <$> filterEffect ascii_toLowerCase emptyTopicPicked
    = filteredResources <$> filterEffect ascii_toLowerCase
                              (handleFilterChange "topic" JNull emptyTopicPicked).
Proof.
  destruct (empty_selection_unconstrained ascii_toLowerCase emptyTopicPicked
              "topic" eq_refl) as [Hdim Hsame].
  split; [exact (Hdim introToGraphs) | exact Hsame].
Defined.

Lemma renderResourceContent_dispatch_witness :
  renderResourceContent (openResource slideDeck (loaded library))
  = Some (Paragraph "Unable to display this resource type.").
Proof.
  apply (renderResourceContent_dispatch
           (openResource slideDeck (loaded library)) slideDeck eq_refl).
  vm_compute. intros Hin.
  repeat (apply elem_of_cons in Hin as [Heq | Hin]; [discriminate Heq |]).
  inversion Hin.
Defined.

Lemma fetchResources_failure_witness :
  ∃ st w, fetchResources (fun _ => Responded (mkResponse 500 None))
            (initialState, initialWorld) = (Ok tt, (st, w))
    ∧ error st = failureMessage
    ∧ isLoading st = false
    ∧ resources st = []
    ∧ filteredResources st = []
    ∧ requests w = ["/resources.json"]
    ∧ render st = ErrorView failureMessage.
Proof.
  apply (fetchResources_failure (fun _ => Responded (mkResponse 500 None))).
  simpl. lia.
Defined.


(** * Further properties of the component *)

(** ** The loader in every outcome *)

(** X1: whatever the network answers and from whatever state, the loader
    returns without an exception escaping, has issued exactly one more
    request, to /resources.json, has marked loading complete, and has left
    the search term, the selections and the open resource alone; the page
    then rendered is not the loading notice. *)
Theorem fetchResources_settles (net : nat → FetchOutcome) (st0 : AppState) (w0 : World) :
  ∃ st w, fetchResources net (st0, w0) = (Ok tt, (st, w))
    ∧ isLoading st = false
    ∧ requests w = (requests w0 ++ ["/resources.json"])%list
    ∧ searchTerm st = searchTerm st0
    ∧ filters st = filters st0
    ∧ selectedResource st = selectedResource st0
    ∧ render st ≠ LoadingView.
Proof.
  unfold fetchResources, try_catch, mbind, M_bind, fetch. simpl.
  destruct (net (List.length (requests w0))) as [|r]; simpl.
  - do 2 eexists. split; [reflexivity |]. by repeat split.
  - destruct (ok r); simpl.
    + unfold json. destruct (body r) as [data|]; simpl.
      * do 2 eexists. split; [reflexivity |]. repeat split.
        unfold render. simpl. by destruct (truthy (error st0)).
      * do 2 eexists. split; [reflexivity |]. by repeat split.
    + do 2 eexists. split; [reflexivity |]. by repeat split.
Qed.

(** X2: a response in the range 200-299 whose body does not parse as JSON is
    a load failure like any other: the SyntaxError is logged, the error
    message is set, the lists stay empty and the error view is rendered. *)
Theorem fetchResources_invalid_body (net : nat → FetchOutcome) (code : Z) :
  net 0%nat = Responded (mkResponse code None) →
  200 <= code <= 299 →
  fetchResources net (initialState, initialWorld)
  = (Ok tt, (setIsLoading false (setError failureMessage initialState),
             mkWorld ["/resources.json"] [("Could not fetch resources:", SyntaxError)]))
  ∧ render (setIsLoading false (setError failureMessage initialState))
    = ErrorView failureMessage.
Proof.
  intros Hnet [Hlo Hhi]. split; [|reflexivity].
  unfold fetchResources, try_catch, mbind, M_bind, fetch. simpl. rewrite Hnet.
  unfold ok. simpl. apply Z.leb_le in Hlo, Hhi. by rewrite Hlo, Hhi.
Qed.

(** X3: on a response outside 200-299 the body is never read: whatever it
    holds, the collection stays empty, and the line logged carries the
    status code. *)
Theorem fetchResources_status_logged (net : nat → FetchOutcome) (r : Response) :
  net 0%nat = Responded r →
  ¬ (200 <= status r <= 299) →
  fetchResources net (initialState, initialWorld)
  = (Ok tt, (setIsLoading false (setError failureMessage initialState),
             mkWorld ["/resources.json"]
               [("Could not fetch resources:",
                 Error ("HTTP error! status: " +:+ pretty (status r)))])).
Proof.
  intros Hnet Hstatus.
  unfold fetchResources, try_catch, mbind, M_bind, fetch. simpl. rewrite Hnet.
  assert (Hok : ok r = false).
  { unfold ok. destruct (200 <=? status r) eqn:H1; [|done].
    destruct (status r <=? 299) eqn:H2; [|done].
    apply Z.leb_le in H1, H2. lia. }
  by rewrite Hok.
Qed.

(** ** More on the filter engine *)

Lemma append_assoc (s t u : string) : (s +:+ t) +:+ u = s +:+ t +:+ u.
Proof.
  induction s as [|c s IH]; [reflexivity |].
  by rewrite !append_String, IH.
Qed.

Lemma kept_sublist_mono {A} (P Q : A → Prop) (xs ys zs : list A) :
  (∀ x, P x → Q x) → kept P xs ys → kept Q xs zs → sublist ys zs.
Proof.
  intros HPQ HP. revert zs.
  induction HP as [|x xs ys HPx _ IH|x xs ys HPx _ IH]; intros zs HQ;
    inversion HQ; subst.
  - constructor.
  - apply sublist_skip. by apply IH.
  - exfalso. auto.
  - apply sublist_cons. by apply IH.
  - by apply IH.
Qed.

Lemma Array_filter_idem {A} (p : A → result bool) (xs ys : list A) :
  Array_filter p xs = Ok ys → Array_filter p ys = Ok ys.
Proof.
  revert ys. induction xs as [|x xs IH]; simpl; intros ys Hrun.
  - by inversion Hrun.
  - destruct (p x) as [b|] eqn:Hx; [|discriminate]. simpl in Hrun.
    destruct (Array_filter p xs) as [rest|] eqn:Hrest; [|discriminate].
    simpl in Hrun. inversion Hrun; subst. destruct b.
    + simpl. rewrite Hx. simpl. by rewrite (IH rest).
    + by apply IH.
Qed.

Section FilterFurther.

Variable toLowerCase : string -> string.

Lemma filterResources_throws (rs : list Resource) (term : string) (fs : jsobj) (e : exn) :
  filterResources toLowerCase rs term fs = Throw e → e = TypeError.
Proof.
  unfold filterResources. induction rs as [|x rs IH]; simpl; [discriminate |].
  destruct (passes toLowerCase term fs x) as [b|e'] eqn:Hx; simpl.
  - destruct (Array_filter (passes toLowerCase term fs) rs); simpl; [discriminate |].
    intros H. inversion H; subst. by apply IH.
  - intros H. inversion H; subst. by eapply passes_throws.
Qed.

Lemma filterEffect_inv (st st' : AppState) :
  filterEffect toLowerCase st = Ok st' →
  ∃ filtered, filterResources toLowerCase (resources st) (searchTerm st) (filters st)
              = Ok filtered
              ∧ st' = setFilteredResources filtered st.
Proof.
  unfold filterEffect.
  destruct (filterResources toLowerCase (resources st) (searchTerm st) (filters st))
    as [filtered|e]; simpl; intros H; inversion H. by exists filtered.
Qed.

Lemma filterEffect_kept (st st' : AppState) :
  filterEffect toLowerCase st = Ok st' →
  kept (meets toLowerCase chosen_truthy (searchTerm st) (filters st))
       (resources st) (filteredResources st').
Proof.
  intros Hrun. destruct (filterEffect_inv st st' Hrun) as [filtered [Hf ->]].
  pose proof (filterResources_returns_titled toLowerCase _ _ _ _ Hf) as Htitled.
  destruct (filterResources_titled toLowerCase _ (searchTerm st) (filters st) Htitled)
    as [filtered' [Hf' Hkept]].
  rewrite Hf in Hf'. inversion Hf'; subst. exact Hkept.
Qed.

Lemma filterEffect_elem_of (st st' : AppState) (r : Resource) :
  filterEffect toLowerCase st = Ok st' →
  r ∈ filteredResources st'
  ↔ r ∈ resources st ∧ meets toLowerCase chosen_truthy (searchTerm st) (filters st) r.
Proof. intros Hrun. by apply kept_elem_of, filterEffect_kept. Qed.

(** X4: the filtering effect returns exactly when every record of the
    collection has a string for a title; otherwise it throws, and what it
    throws is a TypeError. *)
Theorem filterEffect_returns_iff_titled (st : AppState) :
  (titled (resources st) ↔ ∃ st', filterEffect toLowerCase st = Ok st')
  ∧ (¬ titled (resources st) ↔ filterEffect toLowerCase st = Throw TypeError).
Proof.
  assert (Hiff : titled (resources st) ↔ ∃ st', filterEffect toLowerCase st = Ok st').
  { split.
    - intros Htitled.
      destruct (filterResources_titled toLowerCase _ (searchTerm st) (filters st) Htitled)
        as [filtered [Hf _]].
      exists (setFilteredResources filtered st). unfold filterEffect. by rewrite Hf.
    - intros [st' Hrun]. destruct (filterEffect_inv st st' Hrun) as [filtered [Hf _]].
      by eapply filterResources_returns_titled. }
  split; [exact Hiff |]. split.
  - intros Hno. unfold filterEffect.
    destruct (filterResources toLowerCase (resources st) (searchTerm st) (filters st))
      as [filtered|e] eqn:Hf; simpl.
    + destruct Hno. by eapply filterResources_returns_titled.
    + by rewrite (filterResources_throws _ _ _ _ Hf).
  - intros Hthrow Htitled. apply Hiff in Htitled as [st' Hrun]. congruence.
Qed.

(** X5: filtering is idempotent: the list the effect produced passes the
    same filter unchanged, and running the effect again on the state it
    produced changes nothing. *)
Theorem filterEffect_idempotent (st st' : AppState) :
  filterEffect toLowerCase st = Ok st' →
  filterResources toLowerCase (filteredResources st') (searchTerm st) (filters st)
  = Ok (filteredResources st')
  ∧ filterEffect toLowerCase st' = Ok st'.
Proof.
  intros Hrun. destruct (filterEffect_inv st st' Hrun) as [filtered [Hf ->]]. split.
  - simpl. by eapply Array_filter_idem.
  - unfold filterEffect. simpl. by rewrite Hf.
Qed.

(** X6: choosing a value in a dimension that was unconstrained can only
    narrow the list: the effect still returns, and the new filtered list is
    a sub-list of the old one. *)
Theorem selection_narrows (st st1 : AppState) (key : string) (value : jsval) :
  filterEffect toLowerCase st = Ok st1 →
  truthy (get (filters st) key) = false →
  ∃ st2, filterEffect toLowerCase (handleFilterChange key value st) = Ok st2
    ∧ sublist (filteredResources st2) (filteredResources st1).
Proof.
  intros Hrun Hfree.
  pose proof (filterEffect_kept st st1 Hrun) as Hold.
  destruct (filterEffect_inv st st1 Hrun) as [filtered [Hf _]].
  pose proof (filterResources_returns_titled toLowerCase _ _ _ _ Hf) as Htitled.
  destruct (filterResources_titled toLowerCase _ (searchTerm st)
              (<[key := value]> (filters st)) Htitled) as [narrowed [Hn Hnew]].
  exists (setFilteredResources narrowed (handleFilterChange key value st)). split.
  - unfold filterEffect. simpl. by rewrite Hn.
  - simpl. eapply kept_sublist_mono; [|exact Hnew|exact Hold].
    intros r [Httl Hdims]. split; [exact Httl |].
    intros k Hk Hchosen. destruct (decide (k = key)) as [-> | Hne].
    + unfold chosen_truthy in Hchosen. congruence.
    + specialize (Hdims k Hk). unfold get in Hdims |- *.
      rewrite lookup_insert_ne in Hdims by done. by apply Hdims.
Qed.

(** X7: a search term that contains the previous one, case-insensitively,
    can only narrow the list. *)
Theorem search_narrows (st st1 : AppState) (term : string) :
  filterEffect toLowerCase st = Ok st1 →
  contains_ci toLowerCase term (searchTerm st) →
  ∃ st2, filterEffect toLowerCase (handleSearch term st) = Ok st2
    ∧ sublist (filteredResources st2) (filteredResources st1).
Proof.
  intros Hrun [a [b Hab]].
  pose proof (filterEffect_kept st st1 Hrun) as Hold.
  destruct (filterEffect_inv st st1 Hrun) as [filtered [Hf _]].
  pose proof (filterResources_returns_titled toLowerCase _ _ _ _ Hf) as Htitled.
  destruct (filterResources_titled toLowerCase _ term (filters st) Htitled)
    as [narrowed [Hn Hnew]].
  exists (setFilteredResources narrowed (handleSearch term st)). split.
  - unfold filterEffect. simpl. by rewrite Hn.
  - simpl. eapply kept_sublist_mono; [|exact Hnew|exact Hold].
    intros r [[ttl [Httl [p [q Hpq]]]] Hdims]. split; [|exact Hdims].
    exists ttl. split; [exact Httl |]. exists (p +:+ a), (b +:+ q).
    by rewrite Hpq, Hab, !append_assoc.
Qed.

(** X8: a record that lacks the attribute of a dimension is never listed
    while that dimension has a truthy selection. *)
Theorem missing_attribute_excluded (st st' : AppState) (key : string) (r : Resource) :
  key ∈ dimensions →
  r !! key = None →
  truthy (get (filters st) key) = true →
  filterEffect toLowerCase st = Ok st' →
  r ∉ filteredResources st'.
Proof.
  intros Hkey Hmissing Hsel Hrun Hin.
  apply (filterEffect_elem_of st st' r Hrun) in Hin as [_ [_ Hdims]].
  specialize (Hdims key Hkey Hsel). unfold get at 1 in Hdims.
  rewrite Hmissing in Hdims. simpl in Hdims. rewrite <- Hdims in Hsel. discriminate.
Qed.

(** X9: a truthy value offered in a dropdown always finds something: with
    the search term empty and the other dimensions unconstrained, picking
    it yields a non-empty list, every element of which has that value. *)
Theorem offered_value_matches (st : AppState) (key : string) (v : jsval) :
  toLowerCase "" = "" →
  titled (resources st) →
  key ∈ dimensions →
  v ∈ getUniqueValues st key →
  truthy v = true →
  ∃ st', filterEffect toLowerCase (handleFilterChange key v (resetFilters st)) = Ok st'
    ∧ filteredResources st' ≠ []
    ∧ ∀ r, r ∈ filteredResources st' → get r key = v.
Proof.
  intros Hempty Htitled Hkey Hv Htruthy.
  destruct (filterResources_titled toLowerCase _ "" (<[key := v]> noFilters) Htitled)
    as [filtered [Hf Hkept]].
  exists (setFilteredResources filtered (handleFilterChange key v (resetFilters st))).
  assert (Hrun : filterEffect toLowerCase (handleFilterChange key v (resetFilters st))
                 = Ok (setFilteredResources filtered
                         (handleFilterChange key v (resetFilters st)))).
  { unfold filterEffect. simpl. by rewrite Hf. }
  split; [exact Hrun |].
  pose proof (kept_elem_of _ _ _ Hkept) as Hmem. simpl. split.
  - unfold getUniqueValues in Hv.
    apply Set_of_elem_of, list_elem_of_fmap in Hv as [r0 [Hr0 Hin0]].
    assert (Hin : r0 ∈ filtered).
    { apply Hmem. split; [exact Hin0 |]. split.
      - apply (proj1 (Forall_forall _ _) Htitled) in Hin0 as [ttl Httl].
        exists ttl. split; [exact Httl | by apply contains_ci_empty].
      - intros k _ Hchosen. destruct (decide (k = key)) as [-> | Hne].
        + unfold get. rewrite lookup_insert_eq. simpl. by rewrite Hr0.
        + unfold chosen_truthy, get in Hchosen.
          rewrite lookup_insert_ne in Hchosen by done.
          by destruct (noFilters_unconstrained k). }
    intros Hnil. rewrite Hnil in Hin. inversion Hin.
  - intros r Hr. apply Hmem in Hr as [_ [_ Hdims]].
    rewrite (Hdims key Hkey).
    + unfold get. by rewrite lookup_insert_eq.
    + unfold chosen_truthy, get. by rewrite lookup_insert_eq.
Qed.

(** X10: the search is insensitive to the case of the term: two terms with
    the same lower-casing give the same filtered list. *)
Theorem search_case_insensitive (st : AppState) (term1 term2 : string) :
  toLowerCase term1 = toLowerCase term2 →
  filteredResources <$> filterEffect toLowerCase (handleSearch term1 st)
  = filteredResources <$> filterEffect toLowerCase (handleSearch term2 st).
Proof.
  intros Hsame. unfold filterEffect, filterResources. simpl.
  rewrite (Array_filter_ext _ (passes toLowerCase term2 (filters st))).
  - by destruct (Array_filter _ _).
  - intros r _. unfold passes. by rewrite Hsame.
Qed.

End FilterFurther.

(** ** Sessions *)

Lemma handle_frame (a : Action) (st : AppState) :
  resources (handle a st) = resources st
  ∧ filteredResources (handle a st) = filteredResources st
  ∧ isLoading (handle a st) = isLoading st
  ∧ error (handle a st) = error st.
Proof. by destruct a. Qed.

Section SessionProperties.

Variable toLowerCase : string -> string.

Lemma step_frame (a : Action) (st st' : AppState) :
  step toLowerCase a st = Ok st' →
  resources st' = resources st ∧ isLoading st' = isLoading st ∧ error st' = error st.
Proof.
  unfold step. destruct (handle_frame a st) as (Hrs & _ & Hload & Herr).
  destruct (effectDue a st); intros Hstep.
  - apply filterEffect_inv in Hstep as [filtered [_ ->]]. simpl. by rewrite Hrs, Hload, Herr.
  - inversion Hstep; subst. by rewrite Hrs, Hload, Herr.
Qed.

Lemma step_consistent (a : Action) (st : AppState) :
  titled (resources st) →
  consistent toLowerCase st →
  ∃ st', step toLowerCase a st = Ok st' ∧ consistent toLowerCase st'.
Proof.
  intros Htitled Hcons. unfold step. destruct (effectDue a st) eqn:Hdue.
  - destruct (handle_frame a st) as (Hrs & _).
    destruct (filterResources_titled toLowerCase (resources (handle a st))
                (searchTerm (handle a st)) (filters (handle a st)))
      as [filtered [Hf _]]; [by rewrite Hrs |].
    exists (setFilteredResources filtered (handle a st)). split.
    + unfold filterEffect. by rewrite Hf.
    + exact Hf.
  - exists (handle a st). split; [done |].
    destruct a as [value| | |r]; simpl in Hdue; try discriminate.
    + apply negb_false_iff, String.eqb_eq in Hdue. subst value. exact Hcons.
    + exact Hcons.
Qed.

(** X11: no sequence of user actions touches what the loader set: if the
    session returns, the collection, the loading flag and the error are the
    ones it started with. *)
Theorem run_frame (actions : list Action) (st st' : AppState) :
  run toLowerCase actions st = Ok st' →
  resources st' = resources st ∧ isLoading st' = isLoading st ∧ error st' = error st.
Proof.
  revert st. induction actions as [|a rest IH]; simpl; intros st Hrun.
  - by inversion Hrun.
  - destruct (step toLowerCase a st) as [st1|e] eqn:Hstep; [|discriminate].
    simpl in Hrun. apply IH in Hrun as (Hrs & Hload & Herr).
    apply step_frame in Hstep as (Hrs1 & Hload1 & Herr1).
    by rewrite Hrs, Hload, Herr.
Qed.

(** X12: on a collection whose titles are strings, every sequence of user
    actions runs to the end without an exception, and the list on screen
    stays the filter of the collection under the current search term and
    selections, including after actions that do not re-run the effect. *)
Theorem run_consistent (actions : list Action) (st : AppState) :
  titled (resources st) →
  consistent toLowerCase st →
  ∃ st', run toLowerCase actions st = Ok st' ∧ consistent toLowerCase st'.
Proof.
  revert st. induction actions as [|a rest IH]; simpl; intros st Htitled Hcons.
  - by exists st.
  - destruct (step_consistent a st Htitled Hcons) as [st1 [Hstep Hcons1]].
    rewrite Hstep. simpl. apply IH; [|exact Hcons1].
    apply step_frame in Hstep as (Hrs & _). by rewrite Hrs.
Qed.

End SessionProperties.

(** ** How the handlers compose *)

(** X13: on one dimension the last selection wins, selections on different
    dimensions commute, and searching commutes with selecting. *)
Theorem handlers_compose (st : AppState) :
  (∀ key v1 v2,
     handleFilterChange key v2 (handleFilterChange key v1 st)
     = handleFilterChange key v2 st)
  ∧ (∀ key1 key2 v1 v2, key1 ≠ key2 →
     handleFilterChange key1 v1 (handleFilterChange key2 v2 st)
     = handleFilterChange key2 v2 (handleFilterChange key1 v1 st))
  ∧ (∀ key v term,
     handleSearch term (handleFilterChange key v st)
     = handleFilterChange key v (handleSearch term st)).
Proof.
  split; [|split].
  - intros key v1 v2. unfold handleFilterChange, setFilters. simpl.
    by rewrite insert_insert_eq.
  - intros key1 key2 v1 v2 Hne. unfold handleFilterChange, setFilters. simpl.
    by rewrite insert_insert_ne.
  - done.
Qed.

Section SessionReset.

Variable toLowerCase : string -> string.

Lemma run_app (xs ys : list Action) (st : AppState) :
  run toLowerCase (xs ++ ys) st = (st' ← run toLowerCase xs st; run toLowerCase ys st').
Proof.
  revert st. induction xs as [|a xs IH]; simpl; intros st; [done |].
  destruct (step toLowerCase a st) as [st1|e]; simpl; [apply IH | done].
Qed.

Lemma run_returns (actions : list Action) (st : AppState) :
  titled (resources st) →
  ∃ st', run toLowerCase actions st = Ok st' ∧ resources st' = resources st.
Proof.
  revert st. induction actions as [|a rest IH]; simpl; intros st Htitled.
  - by exists st.
  - assert (Hstep : ∃ st1, step toLowerCase a st = Ok st1).
    { unfold step. destruct (effectDue a st); [|by eexists].
      destruct (handle_frame a st) as (Hrs & _).
      destruct (filterResources_titled toLowerCase (resources (handle a st))
                  (searchTerm (handle a st)) (filters (handle a st)))
        as [filtered [Hf _]]; [by rewrite Hrs |].
      eexists. unfold filterEffect. by rewrite Hf. }
    destruct Hstep as [st1 Hstep]. rewrite Hstep. simpl.
    apply step_frame in Hstep as (Hrs & _).
    destruct (IH st1) as [st' [Hrun Hrs']]; [by rewrite Hrs |].
    exists st'. split; [exact Hrun | by rewrite Hrs', Hrs].
Qed.

(** X14: wherever a session has led, pressing reset brings back the full
    collection: the session followed by a reset returns, with the filtered
    list equal to the collection, the search term empty and the selections
    the initial ones. *)
Theorem reset_ends_session (actions : list Action) (st : AppState) :
  toLowerCase "" = "" →
  titled (resources st) →
  ∃ st', run toLowerCase (actions ++ [DoReset]) st = Ok st'
    ∧ filteredResources st' = resources st
    ∧ resources st' = resources st
    ∧ searchTerm st' = ""
    ∧ filters st' = noFilters.
Proof.
  intros Hempty Htitled.
  destruct (run_returns actions st Htitled) as [st1 [Hrun Hrs]].
  exists (setFilteredResources (resources st1) (resetFilters st1)).
  rewrite run_app, Hrun. simpl. unfold step, filterEffect. simpl.
  rewrite (filterResources_reset toLowerCase (resources st1) Hempty)
    by (by rewrite Hrs).
  simpl. by rewrite Hrs.
Qed.

End SessionReset.

(** ** The dropdown options *)

Lemma foldl_Set_add_filter (xs acc : list jsval) :
  foldl Set_add acc xs = (acc ++ filter (fun y => y ∉ acc) (Set_of xs))%list.
Proof.
  revert acc. induction xs as [|v xs IH]; intros acc.
  - simpl. by rewrite app_nil_r.
  - unfold Set_of. simpl. rewrite (IH (Set_add acc v)), (IH (Set_add [] v)).
    unfold Set_add at 3. simpl. fold (Set_of xs).
    unfold Set_add. destruct (decide (v ∈ acc)) as [Hin | Hout].
    + rewrite filter_cons_False by (intros H; by apply H).
      f_equal. symmetry. apply list_filter_filter_l.
      intros x Hx Hv. apply list_elem_of_singleton in Hv. by subst.
    + rewrite filter_cons_True by done. rewrite <- app_assoc. simpl. do 2 f_equal.
      rewrite list_filter_filter. apply list_filter_iff.
      intros x. rewrite elem_of_app. tauto.
Qed.

Lemma Set_of_cons (v : jsval) (xs : list jsval) :
  Set_of (v :: xs) = v :: filter (fun y => y ≠ v) (Set_of xs).
Proof.
  unfold Set_of at 1. simpl. rewrite foldl_Set_add_filter. simpl. f_equal.
  apply list_filter_iff. intros x. rewrite Set_add_elem_of. split.
  - intros Hx Heq. apply Hx. by right.
  - intros Hx [Hin | Heq]; [inversion Hin | done].
Qed.

(** X15: the options of a dropdown come in the order in which their values
    first occur in the collection (the value of the first record, then the
    options of the rest without it); an empty collection offers none, and
    there are never more options than records. *)
Theorem getUniqueValues_first_occurrence (st : AppState) (key : string) :
  getUniqueValues (setResources [] st) key = []
  ∧ (∀ r rs,
       getUniqueValues (setResources (r :: rs) st) key
       = get r key :: filter (fun v => v ≠ get r key)
                        (getUniqueValues (setResources rs st) key))
  ∧ (List.length (getUniqueValues st key) ≤ List.length (resources st))%nat.
Proof.
  split; [done |]. split.
  - intros r rs. unfold getUniqueValues. simpl. apply Set_of_cons.
  - unfold getUniqueValues.
    rewrite <- (length_fmap (fun item => get item key) (resources st)).
    apply submseteq_length, NoDup_submseteq; [apply Set_of_NoDup |].
    intros x. by rewrite Set_of_elem_of.
Qed.


(** X17: the trigger of a dropdown shows the selection exactly when the
    selection constrains the list: a truthy selection is displayed, and
    with a falsy one (null, or the empty string) the label is displayed and
    every resource passes the dimension. *)
Theorem renderDropdown_trigger (st : AppState) (key : string) :
  (truthy (get (filters st) key) = true →
     trigger (renderDropdown st key) = get (filters st) key)
  ∧ (truthy (get (filters st) key) = false →
     trigger (renderDropdown st key) = get filterLabels key
     ∧ ∀ r, dimensionOk (filters st) r key = true).
Proof.
  unfold renderDropdown, js_or, dimensionOk. simpl.
  destruct (truthy (get (filters st) key)); split; try discriminate; done.
Qed.

(** ** The page and the dialog *)

(** X18: once loading is over and no error is set, the page is the library
    view with three dropdowns and one card per filtered resource, in order,
    each card showing its own resource and opening it; every card's dialog
    shows the one shared selection. *)
Theorem render_library (st : AppState) :
  isLoading st = false →
  truthy (error st) = false →
  ∃ dropdowns cards,
    render st = LibraryView (searchTerm st) DoReset dropdowns cards
    ∧ List.length dropdowns = 3%nat
    ∧ List.length cards = List.length (filteredResources st)
    ∧ (∀ (i : nat) r, filteredResources st !! i = Some r →
         ∃ c, cards !! i = Some c
              ∧ cardKey c = get r "id" ∧ cardTitle c = get r "title"
              ∧ cardDescription c = get r "topic" ∧ onView c = DoOpen r)
    ∧ (∀ c, c ∈ cards →
         dialogContent c = renderResourceContent st
         ∧ dialogTitle c = selected_get st "title"
         ∧ dialogDescription c = selected_get st "type").
Proof.
  intros Hloading Herror. unfold render. rewrite Hloading, Herror.
  do 2 eexists. split; [reflexivity |]. split; [done |]. split; [apply length_fmap |].
  split.
  - intros i r Hi. exists (renderCard st r). split; [|done].
    by rewrite list_lookup_fmap, Hi.
  - intros c Hc. apply list_elem_of_fmap in Hc as [r [-> _]]. done.
Qed.

(** X19: pressing a card's button opens that card's resource: afterwards
    the selection is that resource alone, every dialog shows its title and
    type, and the dialog content is an element, not nothing. *)
Theorem view_opens_card (st : AppState) (r other : Resource) :
  selection (handle (onView (renderCard st r)) st) = [r]
  ∧ dialogTitle (renderCard (handle (onView (renderCard st r)) st) other) = get r "title"
  ∧ dialogDescription (renderCard (handle (onView (renderCard st r)) st) other)
    = get r "type"
  ∧ dialogContent (renderCard (handle (onView (renderCard st r)) st) other) ≠ None.
Proof.
  repeat split. simpl. unfold renderResourceContent. simpl.
  destruct (strict_eq (get r "type") (JStr "book") || strict_eq (get r "type") (JStr "article"));
    [done |].
  destruct (strict_eq (get r "type") (JStr "video")); [done |].
  by destruct (strict_eq (get r "type") (JStr "activity")).
Qed.

(** X20: the detail view is empty exactly when nothing is selected, and a
    selected record whose type is missing or is not a string gets the
    fallback message. *)
Theorem renderResourceContent_none_iff (st : AppState) :
  (renderResourceContent st = None ↔ selectedResource st = None)
  ∧ (∀ r, selectedResource st = Some r →
       (∀ s, get r "type" ≠ JStr s) →
       renderResourceContent st = Some (Paragraph "Unable to display this resource type.")).
Proof.
  unfold renderResourceContent. destruct (selectedResource st) as [r|]; split.
  - split; [|discriminate].
    destruct (strict_eq (get r "type") (JStr "book")
              || strict_eq (get r "type") (JStr "article")); [discriminate |].
    destruct (strict_eq (get r "type") (JStr "video")); [discriminate |].
    by destruct (strict_eq (get r "type") (JStr "activity")).
  - intros r' Heq Hty. inversion Heq; subst. unfold strict_eq.
    rewrite !bool_decide_eq_false_2; [done | | | |]; apply Hty.
  - done.
  - intros r Heq. discriminate.
Qed.

(** ** The further properties at concrete inputs *)

Lemma fetchResources_invalid_body_witness :
  fetchResources (fun _ => Responded (mkResponse 200 None)) (initialState, initialWorld)
  = (Ok tt, (setIsLoading false (setError failureMessage initialState),
             mkWorld ["/resources.json"] [("Could not fetch resources:", SyntaxError)])).
Proof.
  apply (fetchResources_invalid_body (fun _ => Responded (mkResponse 200 None)) 200 eq_refl).
  lia.
Defined.

Lemma fetchResources_status_logged_witness :
  fetchResources (fun _ => Responded (mkResponse 404 (Some library)))
    (initialState, initialWorld)
  = (Ok tt, (setIsLoading false (setError failureMessage initialState),
             mkWorld ["/resources.json"]
               [("Could not fetch resources:", Error "HTTP error! status: 404")])).
Proof.
  apply (fetchResources_status_logged (fun _ => Responded (mkResponse 404 (Some library)))
           (mkResponse 404 (Some library)) eq_refl).
  simpl. lia.
Defined.

Lemma filterEffect_idempotent_witness :
  filterResources ascii_toLowerCase [introToGraphs] "graph" noFilters
  = Ok [introToGraphs].
Proof.
  exact (proj1 (filterEffect_idempotent ascii_toLowerCase
                  (handleSearch "graph" (loaded library))
                  (setFilteredResources [introToGraphs] (handleSearch "graph" (loaded library)))
                  eq_refl)).
Defined.

Lemma selection_narrows_witness :
  ∃ st2, filterEffect ascii_toLowerCase
           (handleFilterChange "topic" (JStr "AI") (loaded library)) = Ok st2
    ∧ sublist (filteredResources st2) library.
Proof.
  exact (selection_narrows ascii_toLowerCase (loaded library) (loaded library)
           "topic" (JStr "AI") eq_refl eq_refl).
Defined.

Lemma search_narrows_witness :
  ∃ st2, filterEffect ascii_toLowerCase (handleSearch "Adv" (handleSearch "a" (loaded library)))
         = Ok st2
    ∧ sublist (filteredResources st2) library.
Proof.
  apply (search_narrows ascii_toLowerCase (handleSearch "a" (loaded library))
           (handleSearch "a" (loaded library)) "Adv" eq_refl).
  by exists "", "dv".
Defined.

Lemma missing_attribute_excluded_witness :
  topicless ∉ [advancedML].
Proof.
  apply (missing_attribute_excluded ascii_toLowerCase
           (handleFilterChange "topic" (JStr "AI") (loaded [topicless; advancedML]))
           (setFilteredResources [advancedML]
              (handleFilterChange "topic" (JStr "AI") (loaded [topicless; advancedML])))
           "topic" topicless).
  - left.
  - reflexivity.
  - reflexivity.
  - reflexivity.
Defined.

Lemma offered_value_matches_witness :
  ∃ st', filterEffect ascii_toLowerCase
           (handleFilterChange "topic" (JStr "AI") (resetFilters (loaded library))) = Ok st'
    ∧ filteredResources st' ≠ []
    ∧ ∀ r, r ∈ filteredResources st' → get r "topic" = JStr "AI".
Proof.
  apply (offered_value_matches ascii_toLowerCase (loaded library) "topic" (JStr "AI")
           eq_refl library_titled).
  - left.
  - vm_compute. right. left.
  - reflexivity.
Defined.

Lemma search_case_insensitive_witness :
  filteredResources <$> filterEffect ascii_toLowerCase (handleSearch "GRAPH" (loaded library))
  = filteredResources <$> filterEffect ascii_toLowerCase (handleSearch "graph" (loaded library)).
Proof.
  exact (search_case_insensitive ascii_toLowerCase (loaded library) "GRAPH" "graph" eq_refl).
Defined.

Lemma run_frame_witness :
  resources browsed = library ∧ isLoading browsed = false ∧ error browsed = JNull.
Proof.
  exact (run_frame ascii_toLowerCase browsing (loaded library) browsed eq_refl).
Defined.

Lemma run_consistent_witness :
  ∃ st', run ascii_toLowerCase browsing (loaded library) = Ok st'
    ∧ consistent ascii_toLowerCase st'.
Proof.
  exact (run_consistent ascii_toLowerCase browsing (loaded library)
           library_titled eq_refl).
Defined.

Lemma reset_ends_session_witness :
  ∃ st', run ascii_toLowerCase (browsing ++ [DoReset]) (loaded library) = Ok st'
    ∧ filteredResources st' = library
    ∧ resources st' = library
    ∧ searchTerm st' = ""
    ∧ filters st' = noFilters.
Proof.
  exact (reset_ends_session ascii_toLowerCase browsing (loaded library)
           eq_refl library_titled).
Defined.

Lemma render_library_witness :
  ∃ dropdowns cards,
    render browsed = LibraryView "a" DoReset dropdowns cards
    ∧ List.length dropdowns = 3%nat
    ∧ List.length cards = 1%nat.
Proof.
  destruct (render_library browsed eq_refl eq_refl)
    as (dropdowns & cards & Hrender & Hdrop & Hcards & _).
  exists dropdowns, cards. split; [exact Hrender |]. split; [exact Hdrop | exact Hcards].
Defined.

(** ** A successful start *)

(** X21: a response in 200-299 with a JSON body puts the parsed collection
    in both lists, ends loading, sets no error and logs nothing; when the
    titles are strings the filtering effect that follows keeps every
    record, and the page is the library view with one card per record. *)
Theorem load_success (toLowerCase : string → string) (net : nat → FetchOutcome)
    (code : Z) (data : list Resource) :
  toLowerCase "" = "" →
  net 0%nat = Responded (mkResponse code (Some data)) →
  200 <= code <= 299 →
  titled data →
  fetchResources net (initialState, initialWorld)
  = (Ok tt, (loaded data, mkWorld ["/resources.json"] []))
  ∧ filterEffect toLowerCase (loaded data) = Ok (loaded data)
  ∧ render (loaded data)
    = LibraryView "" DoReset (renderDropdown (loaded data) <$> dimensions)
        (renderCard (loaded data) <$> data).
Proof.
  intros Hempty Hnet Hcode Htitled. split; [|split].
  - by apply fetchResources_success with code.
  - unfold filterEffect. simpl.
    by rewrite (filterResources_reset toLowerCase data Hempty Htitled).
  - reflexivity.
Qed.

Lemma load_success_witness :
  fetchResources (fun _ => Responded (mkResponse 200 (Some library)))
    (initialState, initialWorld)
  = (Ok tt, (loaded library, mkWorld ["/resources.json"] []))
  ∧ filterEffect ascii_toLowerCase (loaded library) = Ok (loaded library)
  ∧ render (loaded library)
    = LibraryView "" DoReset (renderDropdown (loaded library) <$> dimensions)
        (renderCard (loaded library) <$> library).
Proof.
  apply (load_success ascii_toLowerCase (fun _ => Responded (mkResponse 200 (Some library)))
           200 library eq_refl eq_refl); [lia | exact library_titled].
Defined.
